(** * The polls application: models and views

    A shallow embedding of [polls/models.py] and [polls/views.py].

    The two tables of the relational store are finite maps from primary key
    to row (a primary key names at most one row).  A handler is a function of
    the store, of the instant at which [timezone.now()] is read, and of the
    request; [vote], the only handler that writes, returns the new store
    together with its response.

    Modelling bounds, stated once:
    - a [DateTimeField] is an integer instant, a primary key and the
      [votes] counter are unbounded integers;
    - a request is handled at one instant: the clock read by the manager's
      filter and the one read by [save()] for [updated_at] coincide;
    - a submitted form field is text; the conversion of that text to a
      primary key (Python's [int], applied by the key field when the text
      is used in a [pk=...] lookup) is not code of this application: it is
      the parameter [as_pk] of the handlers, and every property is proved
      for every such conversion. *)

From stdpp Require Import gmap strings list sorting fin_maps.
From Stdlib Require Import DecimalString.

Local Open Scope Z_scope.

(** ** polls/models.py *)

Module models.

Record Question := {
  question_text : string;
  pub_date : Z;
  created_at : Z;
  updated_at : Z
}.

(** [question] is the foreign key: the primary key of the owning row. *)
Record Choice := {
  question : Z;
  choice_text : string;
  votes : Z;
  choice_created_at : Z;
  choice_updated_at : Z
}.

(** The store: one table per model. *)
Record DB := {
  questions : gmap Z Question;
  choices : gmap Z Choice
}.

(** [QuestionManager.get_queryset]:
    [super().get_queryset().filter(pub_date__lte=timezone.now())]. *)
Definition get_queryset (db : DB) (now : Z) : gmap Z Question :=
  filter (λ row : Z * Question, pub_date row.2 ≤ now) (questions db).

(** The reverse accessor [question.question_choices] of the foreign key
    ([related_name="question_choices"]). *)
Definition question_choices (db : DB) (question_id : Z) : gmap Z Choice :=
  filter (λ row : Z * Choice, question row.2 = question_id) (choices db).

(** The ordering [order_by('-pub_date')]: newest first.  Among rows with
    equal [pub_date] the database is free to pick the order; the sort below
    fixes one, and no property proved here depends on which. *)
Definition newer_first (a b : Z * Question) : Prop :=
  pub_date b.2 ≤ pub_date a.2.

#[global] Instance newer_first_dec a b : Decision (newer_first a b).
Proof. unfold newer_first. apply _. Defined.

Definition order_by_desc_pub_date (qs : gmap Z Question) : list (Z * Question) :=
  merge_sort newer_first (map_to_list qs).

(** A row as [Choice(question=..., choice_text=...)] builds it:
    [votes] takes its [default=0], both timestamps are set on insert. *)
Definition Choice_new (question_id : Z) (text : string) (now : Z) : Choice :=
  {| question := question_id; choice_text := text; votes := 0;
     choice_created_at := now; choice_updated_at := now |}.

(** [Choice.objects.create(choice_text=..., question=...)]; [pk] is the
    key the database assigns to the new row. *)
Definition Choice_objects_create (db : DB) (now pk : Z) (text : string)
    (question_id : Z) : DB * (Z * Choice) :=
  let c := Choice_new question_id text now in
  ({| questions := questions db; choices := <[pk := c]> (choices db) |}, (pk, c)).

(** [selected_choice.votes += 1] followed by [selected_choice.save()]:
    the row is written back with the new counter; [auto_now] refreshes
    [updated_at]. *)
Definition add_vote (c : Choice) : Choice :=
  {| question := question c; choice_text := choice_text c;
     votes := votes c + 1;
     choice_created_at := choice_created_at c;
     choice_updated_at := choice_updated_at c |}.

Definition Choice_save (db : DB) (now pk : Z) (c : Choice) : DB :=
  let row := {| question := question c; choice_text := choice_text c;
                votes := votes c;
                choice_created_at := choice_created_at c;
                choice_updated_at := now |} in
  {| questions := questions db; choices := <[pk := row]> (choices db) |}.

End models.

Import models.

(** ** polls/views.py *)

Module views.

(** A model instance held by a view: its key, its fields and, after
    [prefetch_related('question_choices')], the loaded choices. *)
Record QuestionInstance := {
  pk : Z;
  fields : Question;
  prefetched : option (gmap Z Choice)
}.

Inductive ContextValue :=
| CtxQuestion (q : QuestionInstance)
| CtxQuestions (qs : list (Z * Question))
| CtxStr (s : string).

(** [reverse(name, args=...)]: the routing table is not part of the
    sources, so a URL stays the route name with its arguments. *)
Record Url := reverse { route : string; args : list Z }.

Inductive Exception :=
| Question_DoesNotExist
| Choice_DoesNotExist
| KeyError
| ValueError.

(** What a view produces: a rendered template (status 200), a redirect
    (status 302), the [Http404] it raises (status 404), or an exception that
    none of its [except] clauses catches, which the server answers with
    status 500. *)
Inductive HttpResponse :=
| render (template : string) (context : gmap string ContextValue)
| HttpResponseRedirect (location : Url)
| Http404 (message : string)
| Uncaught (e : Exception).

Definition status_code (r : HttpResponse) : Z :=
  match r with
  | render _ _ => 200
  | HttpResponseRedirect _ => 302
  | Http404 _ => 404
  | Uncaught _ => 500
  end.

(** [request.POST]: the submitted form, field name to text. *)
Record HttpRequest := { POST : gmap string string }.

(** [Question.objects.get(pk=question_id)] *)
Definition Question_objects_get (db : DB) (now question_id : Z)
    : Exception + QuestionInstance :=
  match get_queryset db now !! question_id with
  | Some q => inr {| pk := question_id; fields := q; prefetched := None |}
  | None => inl Question_DoesNotExist
  end.

(** [Question.objects.prefetch_related('question_choices').get(pk=question_id)] *)
Definition Question_objects_prefetch_get (db : DB) (now question_id : Z)
    : Exception + QuestionInstance :=
  match get_queryset db now !! question_id with
  | Some q => inr {| pk := question_id; fields := q;
                     prefetched := Some (question_choices db question_id) |}
  | None => inl Question_DoesNotExist
  end.

(** [request.POST['choice']] *)
Definition POST_getitem (request : HttpRequest) (key : string)
    : Exception + string :=
  match POST request !! key with
  | Some v => inr v
  | None => inl KeyError
  end.

Definition index (db : DB) (now : Z) : HttpResponse :=
  let questions := order_by_desc_pub_date (get_queryset db now) in
  render "polls/index.html" {[ "questions" := CtxQuestions questions ]}.

Definition detail (db : DB) (now question_id : Z) : HttpResponse :=
  match Question_objects_prefetch_get db now question_id with
  | inl _ => Http404 "Question does not exist"
  | inr question =>
      render "polls/detail.html" {[ "question" := CtxQuestion question ]}
  end.

(** The page the [except (KeyError, Choice.DoesNotExist)] branch renders. *)
Definition detail_with_error (question : QuestionInstance) : HttpResponse :=
  render "polls/detail.html"
    (<[ "question" := CtxQuestion question ]>
     {[ "error_message" := CtxStr "You didn't select a choice." ]}).

Section conversion.

(** [as_pk value] is the integer the key field makes of the text [value]
    handed to a [pk=...] lookup, [None] when the conversion raises
    [ValueError]. *)
Context (as_pk : string → option Z).

(** [question.question_choices.get(pk=value)]: the value is converted
    first, then the row is looked up among the question's choices. *)
Definition question_choices_get (db : DB) (q : QuestionInstance) (value : string)
    : Exception + (Z * Choice) :=
  match as_pk value with
  | None => inl ValueError
  | Some choice_id =>
      match question_choices db (pk q) !! choice_id with
      | Some c => inr (choice_id, c)
      | None => inl Choice_DoesNotExist
      end
  end.

(** The [try] block has two [except] clauses: [Question.DoesNotExist]
    becomes [Http404]; [KeyError] and [Choice.DoesNotExist] render the
    detail page with the error message.  Any other exception escapes. *)
Definition vote (db : DB) (now : Z) (request : HttpRequest) (question_id : Z)
    : DB * HttpResponse :=
  match Question_objects_get db now question_id with
  | inl _ => (db, Http404 "Question does not exist")
  | inr question =>
      match POST_getitem request "choice" with
      | inl _ => (db, detail_with_error question)
      | inr value =>
          match question_choices_get db question value with
          | inl Choice_DoesNotExist => (db, detail_with_error question)
          | inl e => (db, Uncaught e)
          | inr (choice_pk, selected_choice) =>
              let selected_choice := add_vote selected_choice in
              (Choice_save db now choice_pk selected_choice,
               HttpResponseRedirect (reverse "polls:results" [pk question]))
          end
      end
  end.

End conversion.

Definition results (db : DB) (now question_id : Z) : HttpResponse :=
  match Question_objects_prefetch_get db now question_id with
  | inl _ => Http404 "Question does not exist"
  | inr question =>
      render "polls/results.html" {[ "question" := CtxQuestion question ]}
  end.

End views.

Import views.


(** ** The four routes *)

Module urls.

(** Modelled from the spec: the routing table ([polls/urls.py] is not among
    the sources).  Section 6 lists four endpoints: [index] (GET), [detail]
    (GET, question_id), [vote] (POST, question_id, form field [choice]) and
    [results] (GET, question_id).  These are the operations an end user can
    perform; everything else goes through the administrative editor. *)
Inductive Request :=
| GET_index
| GET_detail (question_id : Z)
| POST_vote (question_id : Z) (request : HttpRequest)
| GET_results (question_id : Z).

Section conversion.

Context (as_pk : string → option Z).

Definition dispatch (db : DB) (now : Z) (r : Request) : DB * HttpResponse :=
  match r with
  | GET_index => (db, index db now)
  | GET_detail question_id => (db, detail db now question_id)
  | POST_vote question_id request => vote as_pk db now request question_id
  | GET_results question_id => (db, results db now question_id)
  end.

(** Requests served one after the other, each at its own instant. *)
Fixpoint serve (db : DB) (trace : list (Z * Request)) : DB :=
  match trace with
  | [] => db
  | (now, r) :: trace => serve (dispatch db now r).1 trace
  end.

End conversion.

(** The invariant of the [votes] counters. *)
Definition votes_nonneg (db : DB) : Prop :=
  map_Forall (λ _ c, 0 ≤ votes c) (choices db).

End urls.

Import urls.

(** ** polls/tests.py: the fixture helpers and some stores built with them *)

Module tests.

Definition empty_db : DB := {| questions := ∅; choices := ∅ |}.

(** One day of [datetime.timedelta(days=...)], instants counted in seconds. *)
Definition day : Z := 86400.

(** [create_question(question_text, days)]; [pk] is the key the database
    assigns. *)
Definition create_question (db : DB) (now pk : Z) (text : string) (days : Z)
    : DB * (Z * Question) :=
  let q := {| question_text := text; pub_date := now + days * day;
              created_at := now; updated_at := now |} in
  ({| questions := <[pk := q]> (questions db); choices := choices db |}, (pk, q)).

(** [create_choice(choice_text, question)] *)
Definition create_choice (db : DB) (now pk : Z) (text : string)
    (question : Z * Question) : DB * (Z * Choice) :=
  Choice_objects_create db now pk text question.1.

(** A question published thirty days ago with one choice, as in
    [test_question_choice_votes_increases_after_vote]. *)
Definition past_question_db : DB :=
  let '(db, question) := create_question empty_db 0 1 "Question." (-30) in
  (create_choice db 0 1 "Choice 1" question).1.

(** A question whose [pub_date] lies five days ahead, as in
    [QuestionDetailViewTests.test_future_question], with one choice. *)
Definition future_question_db : DB :=
  let '(db, question) := create_question empty_db 0 1 "Future question." 5 in
  (create_choice db 0 1 "Choice 1" question).1.

(** Three questions published twelve, ten and seven days ago, as in
    [test_get_questions]. *)
Definition three_questions_db : DB :=
  let '(db, _) := create_question empty_db 0 1 "Question 1" (-12) in
  let '(db, _) := create_question db 0 2 "Question 2" (-10) in
  (create_question db 0 3 "Question 3" (-7)).1.

(** The form [{"choice": ...}] the tests post, with the text it carries. *)
Definition choice_form (value : string) : HttpRequest :=
  {| POST := {[ "choice" := value ]} |}.

(** A conversion to run the examples with: it reads the decimal numerals,
    with an optional minus sign, and refuses every other text.  The
    examples submit plain numerals and texts without any digit only. *)
Definition decimal (value : string) : option Z :=
  Z.of_int <$> NilZero.int_of_string value.

Definition empty_form : HttpRequest := {| POST := ∅ |}.

End tests.

Import tests.

(** ** Notions used to state how the operations compose *)

Module tally.

(** [get_choice(choice_id)] of [polls/tests.py]:
    [Choice.objects.get(pk=choice_id)], through the manager Django gives
    [Choice] by default, which filters nothing. *)
Definition get_choice (db : DB) (choice_id : Z) : Exception + (Z * Choice) :=
  match choices db !! choice_id with
  | Some c => inr (choice_id, c)
  | None => inl Choice_DoesNotExist
  end.

(** The [votes] counters of the Choice table, by primary key. *)
Definition counters (db : DB) : gmap Z Z := votes <$> choices db.

(** The owning Question of each Choice row, by primary key. *)
Definition owners (db : DB) : gmap Z Z := question <$> choices db.

(** Every Choice row refers to a stored Question: the constraint of the
    [ForeignKey] of [Choice.question]. *)
Definition references_stored (db : DB) : Prop :=
  map_Forall (λ _ c, is_Some (questions db !! question c)) (choices db).

(** The same submission to [vote], sent once at each of the instants. *)
Definition vote_at_each (question_id : Z) (request : HttpRequest)
    (nows : list Z) : list (Z * Request) :=
  (λ now, (now, POST_vote question_id request)) <$> nows.

(** What a store holds apart from the [votes] counters and the
    [updated_at] stamps of its Choice rows: the Question table, and for
    each Choice row its owner, its text and its creation stamp. *)
Definition skeleton (db : DB) : gmap Z Question * gmap Z (Z * string * Z) :=
  (questions db,
   (λ c, (question c, choice_text c, choice_created_at c)) <$> choices db).

(** The Choice a vote request is for, when the request is one that the
    handler accepts; it is read off the Question table and the owners of
    the Choice rows only. *)
Definition selected (as_pk : string → option Z) (db : DB) (now : Z)
    (request : HttpRequest) (question_id : Z) : option Z :=
  match get_queryset db now !! question_id, POST request !! "choice" with
  | Some _, Some value =>
      match as_pk value with
      | Some choice_id =>
          if decide (owners db !! choice_id = Some question_id)
          then Some choice_id else None
      | None => None
      end
  | _, _ => None
  end.

End tally.

Import tally.

(** * Properties *)

(** ** The manager's filter and the related accessor *)

Lemma lookup_get_queryset db now k q :
  get_queryset db now !! k = Some q ↔ questions db !! k = Some q ∧ pub_date q ≤ now.
Proof. unfold get_queryset. by rewrite map_lookup_filter_Some. Qed.

Lemma get_queryset_published db now k q :
  questions db !! k = Some q → pub_date q ≤ now → get_queryset db now !! k = Some q.
Proof. intros. by apply lookup_get_queryset. Qed.

Lemma get_queryset_unknown db now k :
  questions db !! k = None → get_queryset db now !! k = None.
Proof.
  intros Hk. unfold get_queryset. apply map_lookup_filter_None. by left.
Qed.

Lemma get_queryset_future db now k q :
  questions db !! k = Some q → now < pub_date q → get_queryset db now !! k = None.
Proof.
  intros Hk Hlt. unfold get_queryset. apply map_lookup_filter_None. right.
  intros q' Hq'. simplify_eq. simpl. lia.
Qed.

Lemma lookup_question_choices db question_id k c :
  question_choices db question_id !! k = Some c ↔
  choices db !! k = Some c ∧ question c = question_id.
Proof. unfold question_choices. by rewrite map_lookup_filter_Some. Qed.

Lemma question_choices_other db question_id k :
  ¬ (∃ c, choices db !! k = Some c ∧ question c = question_id) →
  question_choices db question_id !! k = None.
Proof.
  intros Hno. destruct (question_choices db question_id !! k) as [c|] eqn:E; [|done].
  apply lookup_question_choices in E. exfalso. eauto.
Qed.

(** ** The ordering *)

#[global] Instance newer_first_total : Total newer_first.
Proof. intros a b. unfold newer_first. lia. Qed.

#[global] Instance newer_first_trans : Transitive newer_first.
Proof. intros a b c. unfold newer_first. lia. Qed.

Lemma elem_of_order_by qs k q :
  (k, q) ∈ order_by_desc_pub_date qs ↔ qs !! k = Some q.
Proof.
  unfold order_by_desc_pub_date.
  rewrite merge_sort_Permutation. apply elem_of_map_to_list.
Qed.

Lemma order_by_sorted qs : StronglySorted newer_first (order_by_desc_pub_date qs).
Proof. apply StronglySorted_merge_sort; apply _. Qed.

(** ** The published-question query *)

(** C3: at every store state and every instant [t], the published-question
    query holds exactly the stored Questions whose [pub_date] is at or
    before [t], and a listing ordered from it holds exactly those as well:
    no Question with a later [pub_date] appears. *)
Theorem published_query_exact (db : DB) (t k : Z) (q : Question) :
  (get_queryset db t !! k = Some q ↔ questions db !! k = Some q ∧ pub_date q ≤ t) ∧
  ((k, q) ∈ order_by_desc_pub_date (get_queryset db t) ↔
     questions db !! k = Some q ∧ pub_date q ≤ t) ∧
  ¬ (t < pub_date q ∧ (k, q) ∈ order_by_desc_pub_date (get_queryset db t)).
Proof.
  pose proof (lookup_get_queryset db t k q) as Hq.
  pose proof (elem_of_order_by (get_queryset db t) k q) as Hl.
  split; [done|]. split.
  - by rewrite Hl.
  - intros [Hlt Hin]. apply Hl, Hq in Hin. lia.
Qed.

(** ** Unknown and unpublished questions *)

(** C6: for a question identifier that matches no Question row, each of
    the detail, vote and results handlers answers with [Http404] (status
    404); for vote this holds whatever the submission contains, and the
    store is left as it was. *)
Theorem unknown_question_not_found (as_pk : string → option Z)
    (db : DB) (now question_id : Z)
    (request : HttpRequest) :
  questions db !! question_id = None →
  detail db now question_id = Http404 "Question does not exist" ∧
  vote as_pk db now request question_id = (db, Http404 "Question does not exist") ∧
  results db now question_id = Http404 "Question does not exist" ∧
  status_code (detail db now question_id) = 404 ∧
  status_code (vote as_pk db now request question_id).2 = 404 ∧
  status_code (results db now question_id) = 404.
Proof.
  intros Hk. apply (get_queryset_unknown db now) in Hk.
  unfold detail, vote, results, Question_objects_prefetch_get, Question_objects_get.
  rewrite Hk. done.
Qed.

Lemma unknown_question_not_found_witness :
  questions past_question_db !! 1000 = None ∧
  detail past_question_db 0 1000 = Http404 "Question does not exist" ∧
  vote decimal past_question_db 0 (choice_form "1") 1000
    = (past_question_db, Http404 "Question does not exist") ∧
  results past_question_db 0 1000 = Http404 "Question does not exist".
Proof.
  assert (H : questions past_question_db !! 1000 = None) by reflexivity.
  split; [exact H|].
  destruct (unknown_question_not_found decimal past_question_db 0 1000 (choice_form "1") H)
    as (Hd & Hv & Hr & _).
  auto.
Defined.

(** C10: for a stored Question whose [pub_date] is after the current
    instant, the vote handler and the results handler both answer
    [Http404], and the vote request leaves the store as it was: every
    lookup goes through the manager's filter.  The same holds for detail,
    and the index listing omits the Question. *)
Theorem future_question_not_found (as_pk : string → option Z)
    (db : DB) (now question_id : Z)
    (q : Question) (request : HttpRequest) :
  questions db !! question_id = Some q →
  now < pub_date q →
  vote as_pk db now request question_id = (db, Http404 "Question does not exist") ∧
  results db now question_id = Http404 "Question does not exist" ∧
  detail db now question_id = Http404 "Question does not exist" ∧
  (question_id, q) ∉ order_by_desc_pub_date (get_queryset db now).
Proof.
  intros Hk Hlt. pose proof (get_queryset_future db now _ _ Hk Hlt) as Hnone.
  unfold detail, vote, results, Question_objects_prefetch_get, Question_objects_get.
  rewrite Hnone. repeat split.
  rewrite elem_of_order_by. congruence.
Qed.

Lemma future_question_not_found_witness :
  vote decimal future_question_db 0 (choice_form "1") 1
    = (future_question_db, Http404 "Question does not exist") ∧
  results future_question_db 0 1 = Http404 "Question does not exist".
Proof.
  destruct (future_question_not_found decimal future_question_db 0 1
              {| question_text := "Future question."; pub_date := 5 * day;
                 created_at := 0; updated_at := 0 |} (choice_form "1"))
    as (Hv & Hr & _).
  - reflexivity.
  - vm_compute. reflexivity.
  - auto.
Defined.

(** ** The detail handler *)

(** C5, as the spec states it, fails: the store of
    [QuestionDetailViewTests.test_future_question] holds question 1 with a
    [pub_date] five days ahead, and a detail request for it is answered
    with [Http404], not with the detail page. *)
Lemma detail_future_counterexample :
  (∃ q, questions future_question_db !! 1 = Some q ∧ 0 < pub_date q) ∧
  detail future_question_db 0 1 = Http404 "Question does not exist" ∧
  status_code (detail future_question_db 0 1) = 404 ∧
  (∀ context, detail future_question_db 0 1 ≠ render "polls/detail.html" context).
Proof.
  split; [|repeat split; try reflexivity; discriminate].
  eexists. split; [reflexivity|]. vm_compute. reflexivity.
Qed.

(** C5 (amended): for a stored Question whose [pub_date] is after the
    current instant, a detail request answers [Http404]; the detail
    handler fetches through the filtering manager, so it renders the detail
    page, with the choices loaded, exactly for the stored Questions whose
    [pub_date] is at or before the current instant. *)
Theorem detail_enforces_publish_filter (db : DB) (now question_id : Z)
    (q : Question) :
  questions db !! question_id = Some q →
  (now < pub_date q →
     detail db now question_id = Http404 "Question does not exist") ∧
  (pub_date q ≤ now →
     detail db now question_id =
       render "polls/detail.html"
         {[ "question" :=
              CtxQuestion {| pk := question_id; fields := q;
                             prefetched := Some (question_choices db question_id) |} ]}).
Proof.
  intros Hk. unfold detail, Question_objects_prefetch_get. split; intros Hd.
  - by rewrite (get_queryset_future db now _ _ Hk Hd).
  - by rewrite (get_queryset_published db now _ _ Hk Hd).
Qed.

Lemma detail_enforces_publish_filter_witness :
  detail future_question_db 0 1 = Http404 "Question does not exist" ∧
  status_code (detail future_question_db (5 * day) 1) = 200.
Proof.
  split.
  - refine (proj1 (detail_enforces_publish_filter future_question_db 0 1
              {| question_text := "Future question."; pub_date := 5 * day;
                 created_at := 0; updated_at := 0 |} _) _).
    + reflexivity.
    + vm_compute. reflexivity.
  - rewrite (proj2 (detail_enforces_publish_filter future_question_db (5 * day) 1
              {| question_text := "Future question."; pub_date := 5 * day;
                 created_at := 0; updated_at := 0 |} eq_refl)).
    + reflexivity.
    + vm_compute. discriminate.
Defined.

(** ** The list handler *)

Lemma sorted_three_unique (l : list (Z * Question)) (a b c : Z * Question) :
  l ≡ₚ [a; b; c] →
  StronglySorted newer_first l →
  pub_date a.2 < pub_date b.2 → pub_date b.2 < pub_date c.2 →
  l = [c; b; a].
Proof.
  intros Hp Hs Hab Hbc.
  pose proof (Permutation_length Hp) as Hlen.
  destruct l as [|x [|y [|z [|]]]]; simplify_eq/=.
  assert (Ha : a ∈ [x; y; z]) by (rewrite Hp, !elem_of_cons; auto).
  assert (Hb : b ∈ [x; y; z]) by (rewrite Hp, !elem_of_cons; auto).
  assert (Hc : c ∈ [x; y; z]) by (rewrite Hp, !elem_of_cons; auto).
  apply StronglySorted_inv in Hs as [Hs Hx].
  apply StronglySorted_inv in Hs as [_ Hy].
  apply Forall_cons in Hx as [Hxy Hx]. apply Forall_cons in Hx as [Hxz _].
  apply Forall_cons in Hy as [Hyz _].
  unfold newer_first in *.
  set_unfold.
  destruct Ha as [->|[->|[->|[]]]], Hb as [->|[->|[->|[]]]],
    Hc as [->|[->|[->|[]]]]; first [lia | reflexivity].
Qed.

Lemma get_queryset_all_published db now :
  map_Forall (λ _ q, pub_date q ≤ now) (questions db) →
  get_queryset db now = questions db.
Proof.
  intros Hall. unfold get_queryset. apply map_filter_id.
  intros k q Hk. exact (Hall k q Hk).
Qed.

(** C4, as the spec states it, fails: the store of
    [QuestionIndexViewTests.test_future_question] holds question 1, whose
    [pub_date] is ahead of the current instant, and the list handler returns
    the empty listing. *)
Lemma index_future_counterexample :
  (∃ q, questions future_question_db !! 1 = Some q ∧ 0 < pub_date q) ∧
  index future_question_db 0 =
    render "polls/index.html" {[ "questions" := CtxQuestions [] ]} ∧
  (∀ q, (1, q) ∉ order_by_desc_pub_date (get_queryset future_question_db 0)).
Proof.
  split; [|split; [reflexivity|]].
  - eexists. split; [reflexivity|]. vm_compute. reflexivity.
  - intros q. change (order_by_desc_pub_date (get_queryset future_question_db 0))
      with (@nil (Z * Question)). apply not_elem_of_nil.
Qed.

(** C4 (amended): at every store state the list handler returns exactly
    the stored Questions whose [pub_date] is at or before the current
    instant; a stored Question whose [pub_date] is later is left out: the
    publish filter of the manager applies at the list endpoint. *)
Theorem index_lists_published_only (db : DB) (now : Z) :
  ∃ listing,
    index db now = render "polls/index.html" {[ "questions" := CtxQuestions listing ]} ∧
    NoDup listing ∧
    (∀ k q, (k, q) ∈ listing ↔ questions db !! k = Some q ∧ pub_date q ≤ now) ∧
    (∀ k q, questions db !! k = Some q ∧ now < pub_date q → (k, q) ∉ listing).
Proof.
  exists (order_by_desc_pub_date (get_queryset db now)).
  assert (Hin : ∀ k q, (k, q) ∈ order_by_desc_pub_date (get_queryset db now) ↔
                       questions db !! k = Some q ∧ pub_date q ≤ now).
  { intros k q. by rewrite elem_of_order_by, lookup_get_queryset. }
  split; [reflexivity|]. split; [|split].
  - unfold order_by_desc_pub_date. rewrite merge_sort_Permutation.
    apply NoDup_map_to_list.
  - exact Hin.
  - intros k q [_ Hlt] Hel. apply Hin in Hel. lia.
Qed.

(** C7: at every store state the Questions returned by the list handler
    are in descending order of [pub_date]; in particular, when the store
    holds three published Questions whose [pub_date]s increase, they are
    returned newest first. *)
Theorem index_newest_first (db : DB) (now : Z) :
  ∃ listing,
    index db now = render "polls/index.html" {[ "questions" := CtxQuestions listing ]} ∧
    StronglySorted (λ a b : Z * Question, pub_date b.2 ≤ pub_date a.2) listing ∧
    (∀ k1 k2 k3 q1 q2 q3,
       k1 ≠ k2 → k1 ≠ k3 → k2 ≠ k3 →
       questions db = <[k1 := q1]> (<[k2 := q2]> {[ k3 := q3 ]}) →
       pub_date q1 < pub_date q2 → pub_date q2 < pub_date q3 → pub_date q3 ≤ now →
       listing = [(k3, q3); (k2, q2); (k1, q1)]).
Proof.
  exists (order_by_desc_pub_date (get_queryset db now)).
  split; [reflexivity|]. split; [apply order_by_sorted|].
  intros k1 k2 k3 q1 q2 q3 H12 H13 H23 Hdb Hd12 Hd23 Hd3.
  apply (sorted_three_unique _ (k1, q1) (k2, q2) (k3, q3)); simpl;
    [|apply order_by_sorted|done..].
  unfold order_by_desc_pub_date. rewrite merge_sort_Permutation.
  rewrite get_queryset_all_published.
  - rewrite Hdb.
    rewrite map_to_list_insert by (by rewrite lookup_insert_ne, lookup_singleton_ne).
    rewrite map_to_list_insert by (by rewrite lookup_singleton_ne).
    by rewrite map_to_list_singleton.
  - rewrite Hdb. intros k q Hk.
    apply lookup_insert_Some in Hk as [[_ <-]|[_ Hk]]; [lia|].
    apply lookup_insert_Some in Hk as [[_ <-]|[_ Hk]]; [lia|].
    apply lookup_singleton_Some in Hk as [_ <-]. lia.
Qed.

Lemma index_newest_first_witness :
  index three_questions_db 0 =
    render "polls/index.html"
      {[ "questions" := CtxQuestions
           [ (3, {| question_text := "Question 3"; pub_date := -7 * day;
                    created_at := 0; updated_at := 0 |});
             (2, {| question_text := "Question 2"; pub_date := -10 * day;
                    created_at := 0; updated_at := 0 |});
             (1, {| question_text := "Question 1"; pub_date := -12 * day;
                    created_at := 0; updated_at := 0 |}) ] ]}.
Proof.
  destruct (index_newest_first three_questions_db 0) as (listing & Hindex & _ & Hthree).
  rewrite Hindex. f_equal. f_equal. f_equal.
  apply Hthree; try discriminate; vm_compute; first [reflexivity | discriminate].
Defined.

(** ** The vote handler *)

(** Opens [vote] down to the lookups of its [try] block. *)
Ltac unfold_vote :=
  unfold vote, Question_objects_get, POST_getitem, question_choices_get.

Lemma vote_published (as_pk : string → option Z) db now request question_id q :
  questions db !! question_id = Some q → pub_date q ≤ now →
  vote as_pk db now request question_id =
    let question := {| pk := question_id; fields := q; prefetched := None |} in
    match POST request !! "choice" with
    | None => (db, detail_with_error question)
    | Some value =>
        match as_pk value with
        | None => (db, Uncaught ValueError)
        | Some choice_id =>
            match question_choices db question_id !! choice_id with
            | None => (db, detail_with_error question)
            | Some c =>
                (Choice_save db now choice_id (add_vote c),
                 HttpResponseRedirect (reverse "polls:results" [question_id]))
            end
        end
    end.
Proof.
  intros Hk Hd. unfold_vote.
  rewrite (get_queryset_published db now _ _ Hk Hd). simpl.
  destruct (POST request !! "choice") as [value|]; [|done].
  destruct (as_pk value) as [choice_id|]; [|done].
  by destruct (question_choices db question_id !! choice_id).
Qed.

(** C1, as the spec states it, fails: in the store of
    [QuestionDetailViewTests.test_future_question] choice 1 belongs to the
    stored question 1, and a vote for question 1 that submits choice 1 is
    answered with [Http404]; the counter of choice 1 stays at 0. *)
Lemma vote_future_counterexample :
  (∃ q c, questions future_question_db !! 1 = Some q ∧
          choices future_question_db !! 1 = Some c ∧ question c = 1 ∧ votes c = 0) ∧
  POST (choice_form "1") !! "choice" = Some "1" ∧
  decimal "1" = Some 1 ∧
  vote decimal future_question_db 0 (choice_form "1") 1 =
    (future_question_db, Http404 "Question does not exist") ∧
  (vote decimal future_question_db 0 (choice_form "1") 1).2 ≠
    HttpResponseRedirect (reverse "polls:results" [1]) ∧
  votes <$> choices (vote decimal future_question_db 0 (choice_form "1") 1).1 !! 1 = Some 0.
Proof.
  split; [do 2 eexists; repeat split; reflexivity|].
  repeat split; try reflexivity. discriminate.
Qed.

(** C1 (amended): for every stored Question [q] whose [pub_date] is at or
    before the current instant and every Choice [c] belonging to [q], a
    vote request for [q]'s identifier that submits [c]'s identifier (a text
    that the key conversion reads as that identifier) increments [c]'s
    [votes] by exactly 1, stores the changed row (nothing else of the row
    changes but [updated_at]; the Question table is untouched), and answers
    with a redirect (status 302) to the results view for [q]'s
    identifier. *)
Theorem vote_increments_and_redirects (as_pk : string → option Z) (db : DB)
    (now question_id choice_id : Z) (q : Question) (c : Choice)
    (request : HttpRequest) (value : string) :
  questions db !! question_id = Some q →
  pub_date q ≤ now →
  choices db !! choice_id = Some c →
  question c = question_id →
  POST request !! "choice" = Some value →
  as_pk value = Some choice_id →
  ∃ db' c',
    vote as_pk db now request question_id =
      (db', HttpResponseRedirect (reverse "polls:results" [question_id])) ∧
    status_code (vote as_pk db now request question_id).2 = 302 ∧
    choices db' !! choice_id = Some c' ∧
    votes c' = votes c + 1 ∧
    question c' = question c ∧
    choice_text c' = choice_text c ∧
    choice_created_at c' = choice_created_at c ∧
    questions db' = questions db.
Proof.
  intros Hk Hd Hc Hown Hpost Hvalue.
  assert (Hsel : question_choices db question_id !! choice_id = Some c)
    by (by apply lookup_question_choices).
  rewrite (vote_published as_pk db now request question_id q Hk Hd).
  simpl. rewrite Hpost, Hvalue, Hsel.
  eexists _, _. split; [reflexivity|]. simpl.
  rewrite lookup_insert_eq. repeat split.
Qed.

Lemma vote_increments_and_redirects_witness :
  ∃ db' c',
    vote decimal past_question_db 0 (choice_form "1") 1 =
      (db', HttpResponseRedirect (reverse "polls:results" [1])) ∧
    choices db' !! 1 = Some c' ∧ votes c' = 1.
Proof.
  destruct (vote_increments_and_redirects decimal past_question_db 0 1 1
              {| question_text := "Question."; pub_date := -30 * day;
                 created_at := 0; updated_at := 0 |}
              (Choice_new 1 "Choice 1" 0) (choice_form "1") "1")
    as (db' & c' & Hv & _ & Hc' & Hvotes & _).
  - reflexivity.
  - vm_compute. discriminate.
  - reflexivity.
  - reflexivity.
  - reflexivity.
  - reflexivity.
  - exists db', c'. auto.
Defined.

(** C2, as the spec states it, fails: in the store of
    [QuestionDetailViewTests.test_future_question] question 1 is stored, and
    a vote for it without the choice field, or with the identifier 2000 of
    no Choice, is answered with [Http404] (status 404), not with the detail
    page. *)
Lemma vote_invalid_future_counterexample :
  (∃ q, questions future_question_db !! 1 = Some q) ∧
  POST empty_form !! "choice" = None ∧
  decimal "2000" = Some 2000 ∧
  choices future_question_db !! 2000 = None ∧
  vote decimal future_question_db 0 empty_form 1 =
    (future_question_db, Http404 "Question does not exist") ∧
  vote decimal future_question_db 0 (choice_form "2000") 1 =
    (future_question_db, Http404 "Question does not exist") ∧
  status_code (vote decimal future_question_db 0 empty_form 1).2 = 404 ∧
  (∀ context, (vote decimal future_question_db 0 empty_form 1).2 ≠
                render "polls/detail.html" context) ∧
  (∀ context, (vote decimal future_question_db 0 (choice_form "2000") 1).2 ≠
                render "polls/detail.html" context).
Proof.
  split; [eexists; reflexivity|]. repeat split; try reflexivity; discriminate.
Qed.

(** C2 (amended): for every stored Question [q] whose [pub_date] is at or
    before the current instant, a vote request for [q] whose submission
    lacks the choice field, or whose submitted choice value is read as an
    integer identifier that names no Choice belonging to [q], renders the
    detail page for [q] again with the error message "You didn't select a
    choice.", with status 200, and leaves the store, hence every [votes]
    counter, as it was.  A submitted value that is not read as an integer
    is not covered by this statement. *)
Theorem vote_invalid_choice_rerenders (as_pk : string → option Z) (db : DB)
    (now question_id : Z) (q : Question) (request : HttpRequest) :
  questions db !! question_id = Some q →
  pub_date q ≤ now →
  (POST request !! "choice" = None ∨
   ∃ value choice_id,
     POST request !! "choice" = Some value ∧
     as_pk value = Some choice_id ∧
     ¬ ∃ c, choices db !! choice_id = Some c ∧ question c = question_id) →
  vote as_pk db now request question_id =
    (db, render "polls/detail.html"
           (<[ "question" := CtxQuestion {| pk := question_id; fields := q;
                                            prefetched := None |} ]>
            {[ "error_message" := CtxStr "You didn't select a choice." ]})) ∧
  status_code (vote as_pk db now request question_id).2 = 200 ∧
  (∀ k, votes <$> choices (vote as_pk db now request question_id).1 !! k
        = votes <$> choices db !! k).
Proof.
  intros Hk Hd Hbad.
  rewrite (vote_published as_pk db now request question_id q Hk Hd). simpl.
  destruct Hbad as [Hnone | (value & choice_id & Hpost & Hvalue & Hno)].
  - rewrite Hnone. done.
  - rewrite Hpost, Hvalue, (question_choices_other db question_id choice_id Hno).
    done.
Qed.

Lemma vote_invalid_choice_rerenders_witness :
  status_code (vote decimal past_question_db 0 empty_form 1).2 = 200 ∧
  (vote decimal past_question_db 0 (choice_form "2000") 1).1 = past_question_db.
Proof.
  split.
  - refine (proj1 (proj2 (vote_invalid_choice_rerenders decimal past_question_db 0 1
              {| question_text := "Question."; pub_date := -30 * day;
                 created_at := 0; updated_at := 0 |} empty_form _ _ _))).
    + reflexivity.
    + vm_compute. discriminate.
    + left. reflexivity.
  - rewrite (proj1 (vote_invalid_choice_rerenders decimal past_question_db 0 1
              {| question_text := "Question."; pub_date := -30 * day;
                 created_at := 0; updated_at := 0 |} (choice_form "2000")
              eq_refl ltac:(vm_compute; discriminate)
              ltac:(right; exists "2000", 2000; split; [reflexivity|];
                    split; [reflexivity|];
                    intros (c & Hc & _); vm_compute in Hc; discriminate))).
    reflexivity.
Defined.

(** X15: the case the [except] clauses of [vote] leave out: for a stored
    Question whose [pub_date] is at or before the current instant, a
    submitted choice value that the key conversion refuses makes the lookup
    raise [ValueError]; nothing catches it, the answer has status 500 and
    is neither the detail page nor a redirect, and the store is as it
    was. *)
Theorem vote_non_integer_choice (as_pk : string → option Z) (db : DB)
    (now question_id : Z) (q : Question) (request : HttpRequest) (value : string) :
  questions db !! question_id = Some q →
  pub_date q ≤ now →
  POST request !! "choice" = Some value →
  as_pk value = None →
  vote as_pk db now request question_id = (db, Uncaught ValueError) ∧
  status_code (vote as_pk db now request question_id).2 = 500.
Proof.
  intros Hk Hd Hpost Hvalue.
  rewrite (vote_published as_pk db now request question_id q Hk Hd). simpl.
  by rewrite Hpost, Hvalue.
Qed.

Lemma vote_non_integer_choice_witness :
  vote decimal past_question_db 0 (choice_form "abc") 1 =
    (past_question_db, Uncaught ValueError).
Proof.
  refine (proj1 (vote_non_integer_choice decimal past_question_db 0 1
                   {| question_text := "Question."; pub_date := -30 * day;
                      created_at := 0; updated_at := 0 |}
                   (choice_form "abc") "abc" _ _ _ _)).
  - reflexivity.
  - vm_compute. discriminate.
  - reflexivity.
  - reflexivity.
Defined.

(** C8: a call to the vote handler performs at most one counter
    increment.  When it answers with a redirect, the submitted Choice's
    [votes] went up by 1 and every other row of the Choice table is as it
    was; with any other answer, and so when the question is not found, the
    choice field is missing, its value is not read as an integer, or the
    choice is not one of the question's, the store is as it was. *)
Theorem vote_at_most_one_increment (as_pk : string → option Z) (db : DB)
    (now question_id : Z) (request : HttpRequest) :
  let db' := (vote as_pk db now request question_id).1 in
  match (vote as_pk db now request question_id).2 with
  | HttpResponseRedirect _ =>
      ∃ value choice_id c c',
        POST request !! "choice" = Some value ∧
        as_pk value = Some choice_id ∧
        choices db !! choice_id = Some c ∧
        choices db' !! choice_id = Some c' ∧
        votes c' = votes c + 1 ∧
        (∀ k, k ≠ choice_id → choices db' !! k = choices db !! k) ∧
        questions db' = questions db
  | _ => db' = db
  end ∧
  (get_queryset db now !! question_id = None ∨
   POST request !! "choice" = None ∨
   (∃ value, POST request !! "choice" = Some value ∧ as_pk value = None) ∨
   (∃ value choice_id, POST request !! "choice" = Some value ∧
                       as_pk value = Some choice_id ∧
                       question_choices db question_id !! choice_id = None) →
   db' = db ∧ ∀ url, (vote as_pk db now request question_id).2 ≠ HttpResponseRedirect url).
Proof.
  unfold_vote.
  destruct (get_queryset db now !! question_id) as [q|] eqn:Hq; simpl.
  2: { split; [done|]. intros _. done. }
  destruct (POST request !! "choice") as [value|] eqn:Hpost; simpl.
  2: { split; [done|]. intros _. done. }
  destruct (as_pk value) as [choice_id|] eqn:Hvalue; simpl.
  2: { split; [done|]. intros _. done. }
  destruct (question_choices db question_id !! choice_id) as [c|] eqn:Hc; simpl.
  2: { split; [done|]. intros _. done. }
  split.
  - apply lookup_question_choices in Hc as [Hc _].
    exists value, choice_id, c. eexists. split; [done|]. split; [done|].
    split; [done|].
    rewrite lookup_insert_eq. split; [reflexivity|]. simpl.
    split; [reflexivity|]. split; [|reflexivity].
    intros k Hne. by rewrite lookup_insert_ne.
  - intros [Hno | [Hno | [(value' & Heq & Hno) | (value' & choice_id' & Heq & Hv & Hno)]]];
      simplify_eq.
Qed.

(** ** The [votes] counter over time *)

Lemma dispatch_votes_step (as_pk : string → option Z) db now r k c :
  choices db !! k = Some c →
  ∃ c', choices (dispatch as_pk db now r).1 !! k = Some c' ∧
        (votes c' = votes c ∨ votes c' = votes c + 1).
Proof.
  intros Hk. destruct r as [|question_id|question_id request|question_id]; simpl;
    try by (exists c; auto).
  unfold_vote.
  destruct (get_queryset db now !! question_id); simpl; [|by exists c; auto].
  destruct (POST request !! "choice") as [value|]; simpl; [|by exists c; auto].
  destruct (as_pk value) as [choice_id|]; simpl; [|by exists c; auto].
  destruct (question_choices db question_id !! choice_id) as [sel|] eqn:Hsel;
    simpl; [|by exists c; auto].
  apply lookup_question_choices in Hsel as [Hsel _].
  destruct (decide (choice_id = k)) as [->|Hne].
  - rewrite lookup_insert_eq. eexists. split; [reflexivity|]. simpl.
    simplify_eq. auto.
  - rewrite lookup_insert_ne by done. exists c. auto.
Qed.

Lemma dispatch_votes_nonneg (as_pk : string → option Z) db now r :
  votes_nonneg db → votes_nonneg (dispatch as_pk db now r).1.
Proof.
  intros Hinv. destruct r as [|question_id|question_id request|question_id]; simpl;
    try done.
  unfold_vote.
  destruct (get_queryset db now !! question_id); simpl; [|done].
  destruct (POST request !! "choice") as [value|]; simpl; [|done].
  destruct (as_pk value) as [choice_id|]; simpl; [|done].
  destruct (question_choices db question_id !! choice_id) as [sel|] eqn:Hsel;
    simpl; [|done].
  apply lookup_question_choices in Hsel as [Hsel _].
  unfold votes_nonneg, Choice_save. simpl.
  apply map_Forall_insert_2; [|exact Hinv].
  simpl. pose proof (Hinv _ _ Hsel) as Hge. simpl in Hge. lia.
Qed.

Lemma serve_votes_nonneg (as_pk : string → option Z) db trace :
  votes_nonneg db → votes_nonneg (serve as_pk db trace).
Proof.
  revert db. induction trace as [|[now r] trace IH]; intros db Hinv; simpl; [done|].
  apply IH. by apply dispatch_votes_nonneg.
Qed.

Lemma serve_votes_monotone (as_pk : string → option Z) db trace k c :
  choices db !! k = Some c →
  ∃ c', choices (serve as_pk db trace) !! k = Some c' ∧ votes c ≤ votes c'.
Proof.
  revert db c. induction trace as [|[now r] trace IH]; intros db c Hk; simpl.
  - exists c. split; [done|lia].
  - destruct (dispatch_votes_step as_pk db now r k c Hk) as (c1 & Hk1 & Hstep).
    destruct (IH _ _ Hk1) as (c' & Hk' & Hle).
    exists c'. split; [done|lia].
Qed.

(** C9: a newly created Choice has [votes] 0; [votes >= 0] is an
    invariant of creating Choices and of every sequence of requests to the
    four routes; and along every such sequence the [votes] of each Choice
    never decreases (one request changes it by 0 or by +1). *)
Theorem votes_start_at_zero_and_never_decrease (as_pk : string → option Z) :
  (∀ db now pk text question_id,
     let created := Choice_objects_create db now pk text question_id in
     votes created.2.2 = 0 ∧
     choices created.1 !! pk = Some created.2.2 ∧
     (votes_nonneg db → votes_nonneg created.1)) ∧
  (∀ db trace, votes_nonneg db → votes_nonneg (serve as_pk db trace)) ∧
  (∀ db now r k c,
     choices db !! k = Some c →
     ∃ c', choices (dispatch as_pk db now r).1 !! k = Some c' ∧
           (votes c' = votes c ∨ votes c' = votes c + 1)) ∧
  (∀ db trace k c,
     choices db !! k = Some c →
     ∃ c', choices (serve as_pk db trace) !! k = Some c' ∧ votes c ≤ votes c').
Proof.
  split; [|split; [|split]].
  - intros db now pk text question_id. simpl. split; [reflexivity|].
    split; [apply lookup_insert_eq|].
    intros Hinv. unfold votes_nonneg. simpl. by apply map_Forall_insert_2.
  - apply serve_votes_nonneg.
  - apply dispatch_votes_step.
  - apply serve_votes_monotone.
Qed.

Lemma votes_start_at_zero_and_never_decrease_witness :
  let trace := [ (0, POST_vote 1 (choice_form "1")); (1, GET_index);
                 (2, POST_vote 1 (choice_form "2000"));
                 (3, POST_vote 1 (choice_form "1")) ] in
  votes_nonneg past_question_db ∧
  votes_nonneg (serve decimal past_question_db trace) ∧
  ∃ c', choices (serve decimal past_question_db trace) !! 1 = Some c' ∧ 0 ≤ votes c'.
Proof.
  intros trace.
  destruct (votes_start_at_zero_and_never_decrease decimal) as (_ & Hinv & _ & Hmono).
  assert (H0 : votes_nonneg past_question_db).
  { unfold votes_nonneg. apply (bool_decide_unpack _). vm_compute. exact I. }
  split; [exact H0|]. split; [exact (Hinv past_question_db trace H0)|].
  exact (Hmono past_question_db trace 1 (Choice_new 1 "Choice 1" 0) eq_refl).
Defined.

(** * Further properties of the handlers *)

#[local] Set Warnings "-clear-no-such-hyp".

(** ** What the read handlers answer *)

(** X1: for a stored Question whose [pub_date] is at or before the current
    instant, the results handler renders [polls/results.html] (status 200)
    with the Question and, loaded with it, exactly the Choice rows whose
    foreign key is that Question. *)
Theorem results_lists_question_choices (db : DB) (now question_id : Z)
    (q : Question) :
  questions db !! question_id = Some q →
  pub_date q ≤ now →
  ∃ loaded,
    results db now question_id =
      render "polls/results.html"
        {[ "question" := CtxQuestion {| pk := question_id; fields := q;
                                        prefetched := Some loaded |} ]} ∧
    status_code (results db now question_id) = 200 ∧
    (∀ k c, loaded !! k = Some c ↔ choices db !! k = Some c ∧ question c = question_id).
Proof.
  intros Hk Hd. exists (question_choices db question_id).
  unfold results, Question_objects_prefetch_get.
  rewrite (get_queryset_published db now _ _ Hk Hd). simpl.
  split; [reflexivity|]. split; [reflexivity|].
  intros k c. apply lookup_question_choices.
Qed.

Lemma results_lists_question_choices_witness :
  ∃ loaded,
    results past_question_db 0 1 =
      render "polls/results.html"
        {[ "question" := CtxQuestion
             {| pk := 1;
                fields := {| question_text := "Question."; pub_date := -30 * day;
                             created_at := 0; updated_at := 0 |};
                prefetched := Some loaded |} ]} ∧
    loaded !! 1 = Some (Choice_new 1 "Choice 1" 0).
Proof.
  destruct (results_lists_question_choices past_question_db 0 1
              {| question_text := "Question."; pub_date := -30 * day;
                 created_at := 0; updated_at := 0 |})
    as (loaded & Hr & _ & Hl).
  - reflexivity.
  - vm_compute. discriminate.
  - exists loaded. split; [exact Hr|]. apply Hl. split; reflexivity.
Defined.

Lemma get_queryset_is_Some db now k :
  is_Some (get_queryset db now !! k) ↔
  ∃ q, questions db !! k = Some q ∧ pub_date q ≤ now.
Proof.
  split.
  - intros [q Hq]. exists q. by apply lookup_get_queryset.
  - intros (q & Hk & Hd). exists q. by apply lookup_get_queryset.
Qed.

(** X2: the detail and results handlers answer with status 200 exactly
    when the identifier names a stored Question whose [pub_date] is at or
    before the current instant, and with status 404 in every other case;
    the two handlers always agree on the status. *)
Theorem read_handlers_status (db : DB) (now question_id : Z) :
  let visible := ∃ q, questions db !! question_id = Some q ∧ pub_date q ≤ now in
  (status_code (detail db now question_id) = 200 ↔ visible) ∧
  (status_code (detail db now question_id) = 404 ↔ ¬ visible) ∧
  status_code (results db now question_id) = status_code (detail db now question_id).
Proof.
  simpl. pose proof (get_queryset_is_Some db now question_id) as Hvis.
  unfold detail, results, Question_objects_prefetch_get.
  destruct (get_queryset db now !! question_id) as [q|]; simpl.
  - assert (Hyes : ∃ q0, questions db !! question_id = Some q0 ∧ pub_date q0 ≤ now)
      by (apply Hvis; eauto).
    split_and!; [done| |done]. split; [done|]. intros Hno. by destruct Hno.
  - assert (Hno : ¬ ∃ q0, questions db !! question_id = Some q0 ∧ pub_date q0 ≤ now).
    { intros Hyes. apply Hvis in Hyes. by destruct Hyes. }
    split_and!; [|done|done]. split; [done|]. intros Hyes. by destruct Hno.
Qed.

(** X3: the status of the vote handler's answer is decided as follows:
    404 exactly when the identifier names no stored Question with
    [pub_date] at or before the current instant; otherwise 500 exactly
    when the choice field is present and its value is not read as an
    integer ([ValueError] escapes the handler); 302 exactly when the value
    is read as the key of a Choice row owned by that Question; 200 exactly
    when the field is missing or its value is read as an integer that is
    the key of no such row. *)
Theorem vote_status_table (as_pk : string → option Z) (db : DB)
    (now question_id : Z) (request : HttpRequest) :
  let visible := ∃ q, questions db !! question_id = Some q ∧ pub_date q ≤ now in
  let owned := λ choice_id,
    ∃ c, choices db !! choice_id = Some c ∧ question c = question_id in
  let status := status_code (vote as_pk db now request question_id).2 in
  (status = 404 ↔ ¬ visible) ∧
  (status = 500 ↔
     visible ∧ ∃ value, POST request !! "choice" = Some value ∧ as_pk value = None) ∧
  (status = 302 ↔
     visible ∧ ∃ value choice_id, POST request !! "choice" = Some value ∧
                 as_pk value = Some choice_id ∧ owned choice_id) ∧
  (status = 200 ↔
     visible ∧ (POST request !! "choice" = None ∨
                ∃ value choice_id, POST request !! "choice" = Some value ∧
                  as_pk value = Some choice_id ∧ ¬ owned choice_id)).
Proof.
  simpl. pose proof (get_queryset_is_Some db now question_id) as Hvis.
  assert (Hsel : ∀ choice_id,
            is_Some (question_choices db question_id !! choice_id) ↔
            ∃ c, choices db !! choice_id = Some c ∧ question c = question_id).
  { intros choice_id. split.
    - intros [c Hc]. exists c. by apply lookup_question_choices.
    - intros (c & Hc). exists c. by apply lookup_question_choices. }
  unfold_vote.
  destruct (get_queryset db now !! question_id) as [q|]; simpl.
  2: { assert (Hno : ¬ ∃ q0, questions db !! question_id = Some q0 ∧ pub_date q0 ≤ now).
       { intros Hyes. apply Hvis in Hyes. by destruct Hyes. }
       split_and!; split; try done; intros [? ?]; done. }
  assert (Hyes : ∃ q0, questions db !! question_id = Some q0 ∧ pub_date q0 ≤ now)
    by (apply Hvis; eauto).
  destruct (POST request !! "choice") as [value|] eqn:Hpost; simpl.
  2: { split_and!; split; naive_solver. }
  destruct (as_pk value) as [choice_id|] eqn:Hvalue; simpl.
  2: { split_and!; split; naive_solver. }
  specialize (Hsel choice_id).
  destruct (question_choices db question_id !! choice_id) as [c|]; simpl.
  - assert (Hc : ∃ c0, choices db !! choice_id = Some c0 ∧ question c0 = question_id)
      by (apply Hsel; eauto).
    split_and!; split; naive_solver.
  - assert (Hno : ¬ ∃ c0, choices db !! choice_id = Some c0 ∧ question c0 = question_id).
    { intros Hc. apply Hsel in Hc. by destruct Hc. }
    split_and!; split; naive_solver.
Qed.

(** ** What requests leave alone *)

Lemma skeleton_questions db db' :
  skeleton db' = skeleton db → questions db' = questions db.
Proof. unfold skeleton. intros H. by simplify_eq. Qed.

Lemma skeleton_owners db db' :
  skeleton db' = skeleton db → owners db' = owners db.
Proof.
  unfold skeleton, owners. intros H. simplify_eq.
  apply map_eq. intros k.
  assert (Hk : ((λ c, (question c, choice_text c, choice_created_at c)) <$> choices db') !! k
             = ((λ c, (question c, choice_text c, choice_created_at c)) <$> choices db) !! k)
    by congruence.
  rewrite !lookup_fmap in Hk. rewrite !lookup_fmap.
  destruct (choices db' !! k), (choices db !! k); simplify_eq/=; congruence.
Qed.

Lemma skeleton_get_queryset db db' now :
  skeleton db' = skeleton db → get_queryset db' now = get_queryset db now.
Proof. intros H. unfold get_queryset. by rewrite (skeleton_questions _ _ H). Qed.

Lemma skeleton_Choice_save db now k c :
  choices db !! k = Some c →
  skeleton (Choice_save db now k (add_vote c)) = skeleton db.
Proof.
  intros Hk. unfold skeleton, Choice_save. simpl. f_equal.
  rewrite fmap_insert. simpl. apply insert_id.
  by rewrite lookup_fmap, Hk.
Qed.

Lemma vote_skeleton (as_pk : string → option Z) db now request question_id :
  skeleton (vote as_pk db now request question_id).1 = skeleton db.
Proof.
  unfold_vote.
  destruct (get_queryset db now !! question_id); simpl; [|done].
  destruct (POST request !! "choice") as [value|]; simpl; [|done].
  destruct (as_pk value) as [choice_id|]; simpl; [|done].
  destruct (question_choices db question_id !! choice_id) as [c|] eqn:Hc;
    simpl; [|done].
  apply lookup_question_choices in Hc as [Hc _].
  by apply skeleton_Choice_save.
Qed.

Lemma dispatch_skeleton (as_pk : string → option Z) db now r :
  skeleton (dispatch as_pk db now r).1 = skeleton db.
Proof. destruct r; simpl; try done. apply vote_skeleton. Qed.

Lemma serve_skeleton (as_pk : string → option Z)
    db trace : skeleton (serve as_pk db trace) = skeleton db.
Proof.
  revert db. induction trace as [|[now r] trace IH]; intros db; simpl; [done|].
  by rewrite IH, dispatch_skeleton.
Qed.

(** X4: no sequence of requests to the four routes creates, deletes,
    renames or re-parents a row: afterwards the Question table is the one
    before, the Choice table has the same keys, and every Choice row has
    the owner, the text and the creation stamp it had. *)
Theorem requests_keep_rows (as_pk : string → option Z)
    (db : DB) (trace : list (Z * Request)) :
  let db' := serve as_pk db trace in
  questions db' = questions db ∧
  dom (choices db') = dom (choices db) ∧
  (∀ k, question <$> choices db' !! k = question <$> choices db !! k) ∧
  (∀ k, choice_text <$> choices db' !! k = choice_text <$> choices db !! k) ∧
  (∀ k, choice_created_at <$> choices db' !! k = choice_created_at <$> choices db !! k).
Proof.
  simpl. pose proof (serve_skeleton as_pk db trace) as Hs.
  split; [by apply skeleton_questions|].
  unfold skeleton in Hs. injection Hs as _ Hrows.
  assert (Hk : ∀ k,
    (λ c, (question c, choice_text c, choice_created_at c)) <$> choices (serve as_pk db trace) !! k
    = (λ c, (question c, choice_text c, choice_created_at c)) <$> choices db !! k).
  { intros k. rewrite <- !lookup_fmap. by rewrite Hrows. }
  split; [|split_and!].
  - rewrite <- (dom_fmap_L (λ c, (question c, choice_text c, choice_created_at c))
                  (choices (serve as_pk db trace))).
    rewrite Hrows. apply dom_fmap_L.
  - intros k. specialize (Hk k).
    destruct (choices (serve as_pk db trace) !! k), (choices db !! k); simplify_eq/=; congruence.
  - intros k. specialize (Hk k).
    destruct (choices (serve as_pk db trace) !! k), (choices db !! k); simplify_eq/=; congruence.
  - intros k. specialize (Hk k).
    destruct (choices (serve as_pk db trace) !! k), (choices db !! k); simplify_eq/=; congruence.
Qed.

Lemma owners_lookup db k question_id :
  owners db !! k = Some question_id ↔
  ∃ c, choices db !! k = Some c ∧ question c = question_id.
Proof. unfold owners. rewrite lookup_fmap_Some. naive_solver. Qed.

Lemma references_stored_skeleton db db' :
  skeleton db' = skeleton db → references_stored db → references_stored db'.
Proof.
  intros Hs Hinv k c' Hk. simpl.
  assert (Hown : owners db' !! k = Some (question c'))
    by (apply owners_lookup; eauto).
  rewrite (skeleton_owners _ _ Hs) in Hown.
  apply owners_lookup in Hown as (c & Hc & Heq).
  rewrite (skeleton_questions _ _ Hs), <- Heq. exact (Hinv k c Hc).
Qed.

(** X5: the foreign-key constraint is kept: when every Choice row refers
    to a stored Question, it still does after creating a Choice for a
    stored Question, and after any sequence of requests to the four
    routes. *)
Theorem references_stay_stored (as_pk : string → option Z) (db : DB) :
  references_stored db →
  (∀ now pk text question_id q,
     questions db !! question_id = Some q →
     references_stored (create_choice db now pk text (question_id, q)).1) ∧
  (∀ trace, references_stored (serve as_pk db trace)).
Proof.
  intros Hinv. split.
  - intros now pk text question_id q Hq.
    unfold references_stored, create_choice, Choice_objects_create. simpl.
    apply map_Forall_insert_2; [by exists q|exact Hinv].
  - intros trace. apply (references_stored_skeleton db); [apply serve_skeleton|done].
Qed.

Lemma references_stay_stored_witness :
  references_stored past_question_db ∧
  references_stored
    (serve decimal (create_choice past_question_db 0 2 "Choice 2"
              (1, {| question_text := "Question."; pub_date := -30 * day;
                     created_at := 0; updated_at := 0 |})).1
       [ (0, POST_vote 1 (choice_form "2")); (1, GET_results 1) ]).
Proof.
  assert (H0 : references_stored past_question_db).
  { unfold references_stored. apply (bool_decide_unpack _). vm_compute. exact I. }
  split; [exact H0|].
  apply references_stay_stored.
  apply (proj1 (references_stay_stored decimal past_question_db H0)). reflexivity.
Defined.

(** ** How votes compose *)

Lemma question_choices_owner db question_id k :
  is_Some (question_choices db question_id !! k) ↔ owners db !! k = Some question_id.
Proof.
  rewrite owners_lookup. split.
  - intros [c Hc]. exists c. by apply lookup_question_choices.
  - intros (c & Hc). exists c. by apply lookup_question_choices.
Qed.

Lemma selected_skeleton (as_pk : string → option Z) db db' now request question_id :
  skeleton db' = skeleton db →
  selected as_pk db' now request question_id = selected as_pk db now request question_id.
Proof.
  intros Hs. unfold selected.
  by rewrite (skeleton_get_queryset _ _ now Hs), (skeleton_owners _ _ Hs).
Qed.

Lemma vote_response (as_pk : string → option Z) db now request question_id :
  (vote as_pk db now request question_id).2 =
    match get_queryset db now !! question_id with
    | None => Http404 "Question does not exist"
    | Some q =>
        match selected as_pk db now request question_id with
        | Some _ => HttpResponseRedirect (reverse "polls:results" [question_id])
        | None =>
            match as_pk <$> POST request !! "choice" with
            | Some None => Uncaught ValueError
            | _ => detail_with_error {| pk := question_id; fields := q;
                                        prefetched := None |}
            end
        end
    end.
Proof.
  unfold selected. unfold_vote.
  destruct (get_queryset db now !! question_id) as [q|]; simpl; [|done].
  destruct (POST request !! "choice") as [value|]; simpl; [|done].
  destruct (as_pk value) as [choice_id|]; simpl; [|done].
  pose proof (question_choices_owner db question_id choice_id) as Hown.
  destruct (question_choices db question_id !! choice_id) as [c|]; simpl;
    case_decide as Hdec; try done.
  - destruct Hdec. apply Hown. eauto.
  - apply Hown in Hdec. by destruct Hdec.
Qed.

Lemma vote_counters (as_pk : string → option Z) db now request question_id :
  counters (vote as_pk db now request question_id).1 =
    match selected as_pk db now request question_id with
    | Some choice_id => alter (λ v, v + 1) choice_id (counters db)
    | None => counters db
    end.
Proof.
  unfold selected. unfold_vote.
  destruct (get_queryset db now !! question_id) as [q|]; simpl; [|done].
  destruct (POST request !! "choice") as [value|]; simpl; [|done].
  destruct (as_pk value) as [choice_id|]; simpl; [|done].
  pose proof (question_choices_owner db question_id choice_id) as Hown.
  destruct (question_choices db question_id !! choice_id) as [c|] eqn:Hc; simpl;
    case_decide as Hdec; try done.
  - apply lookup_question_choices in Hc as [Hc _].
    unfold counters, Choice_save. simpl. rewrite fmap_insert. simpl.
    apply map_eq. intros k. rewrite lookup_alter, lookup_insert.
    case_decide; [|done]. subst k. by rewrite lookup_fmap, Hc.
  - destruct Hdec. apply Hown. eauto.
  - apply Hown in Hdec. by destruct Hdec.
Qed.

(** X6: what the vote handler answers, and what the list handler
    answers, does not depend on the requests served before: after any
    sequence of requests to the four routes the answer to a vote request,
    and the index page, are those the store gave before the sequence. *)
Theorem answers_independent_of_history (as_pk : string → option Z)
    (db : DB) (trace : list (Z * Request))
    (now question_id : Z) (request : HttpRequest) :
  (vote as_pk (serve as_pk db trace) now request question_id).2 =
    (vote as_pk db now request question_id).2 ∧
  index (serve as_pk db trace) now = index db now.
Proof.
  pose proof (serve_skeleton as_pk db trace) as Hs. split.
  - rewrite !vote_response.
    by rewrite (skeleton_get_queryset _ _ now Hs), (selected_skeleton as_pk _ _ _ _ _ Hs).
  - unfold index. by rewrite (skeleton_get_queryset _ _ now Hs).
Qed.

Lemma alter_succ_commute (m : gmap Z Z) i j :
  alter (λ v, v + 1) i (alter (λ v, v + 1) j m) =
  alter (λ v, v + 1) j (alter (λ v, v + 1) i m).
Proof.
  apply map_eq. intros k. rewrite !lookup_alter.
  repeat case_decide; simplify_eq; try done.
Qed.

Lemma selected_same_visibility (as_pk : string → option Z) db now1 now2
    request question_id :
  (∀ q, questions db !! question_id = Some q →
        (pub_date q ≤ now1 ↔ pub_date q ≤ now2)) →
  selected as_pk db now1 request question_id =
    selected as_pk db now2 request question_id.
Proof.
  intros Hsame. unfold selected.
  destruct (get_queryset db now1 !! question_id) as [q1|] eqn:H1,
           (get_queryset db now2 !! question_id) as [q2|] eqn:H2; try done.
  - apply lookup_get_queryset in H1 as [Hk Hd].
    rewrite (get_queryset_published db now2 _ _ Hk (proj1 (Hsame _ Hk) Hd)) in H2.
    done.
  - apply lookup_get_queryset in H2 as [Hk Hd].
    rewrite (get_queryset_published db now1 _ _ Hk (proj2 (Hsame _ Hk) Hd)) in H1.
    done.
Qed.

(** X7: two vote requests are served one after the other, the first at
    instant [now1] and the second at [now2].  When each of the two
    Questions, if stored, is published at both instants or at neither,
    the counters afterwards are the same whichever of the two requests is
    served first, and so are the rows apart from the counters and the
    [updated_at] stamps. *)
Theorem votes_commute (as_pk : string → option Z) (db : DB)
    (now1 now2 question_id1 question_id2 : Z) (request1 request2 : HttpRequest) :
  (∀ q, questions db !! question_id1 = Some q →
        (pub_date q ≤ now1 ↔ pub_date q ≤ now2)) →
  (∀ q, questions db !! question_id2 = Some q →
        (pub_date q ≤ now1 ↔ pub_date q ≤ now2)) →
  let one_then_two :=
    (vote as_pk (vote as_pk db now1 request1 question_id1).1
       now2 request2 question_id2).1 in
  let two_then_one :=
    (vote as_pk (vote as_pk db now1 request2 question_id2).1
       now2 request1 question_id1).1 in
  counters one_then_two = counters two_then_one ∧
  skeleton one_then_two = skeleton two_then_one.
Proof.
  intros Hsame1 Hsame2. simpl. split.
  - rewrite !vote_counters.
    rewrite !(selected_skeleton as_pk _ _ _ _ _ (vote_skeleton as_pk db _ _ _)).
    rewrite <- (selected_same_visibility as_pk db now1 now2 request1 _ Hsame1).
    rewrite <- (selected_same_visibility as_pk db now1 now2 request2 _ Hsame2).
    destruct (selected as_pk db now1 request1 question_id1),
             (selected as_pk db now1 request2 question_id2); try done.
    apply alter_succ_commute.
  - by rewrite !vote_skeleton.
Qed.

Lemma votes_commute_witness :
  counters (vote decimal (vote decimal past_question_db 0 (choice_form "1") 1).1
              (10 * day) (choice_form "2000") 1).1 =
  counters (vote decimal (vote decimal past_question_db 0 (choice_form "2000") 1).1
              (10 * day) (choice_form "1") 1).1.
Proof.
  refine (proj1 (votes_commute decimal past_question_db 0 (10 * day) 1 1
                   (choice_form "1") (choice_form "2000") _ _)).
  - intros q Hq. vm_compute in Hq. injection Hq as <-. vm_compute.
    split; intros _; discriminate.
  - intros q Hq. vm_compute in Hq. injection Hq as <-. vm_compute.
    split; intros _; discriminate.
Defined.

(** X8: following the redirect of an accepted vote: for a published
    Question and a Choice it owns, the results page requested after the
    vote shows that Choice with its [votes] one higher, and every other
    Choice of the Question as it was. *)
Theorem results_after_vote (as_pk : string → option Z) (db : DB)
    (now later question_id choice_id : Z) (q : Question) (c : Choice)
    (request : HttpRequest) (value : string) :
  questions db !! question_id = Some q →
  pub_date q ≤ now → now ≤ later →
  choices db !! choice_id = Some c →
  question c = question_id →
  POST request !! "choice" = Some value →
  as_pk value = Some choice_id →
  let db' := (vote as_pk db now request question_id).1 in
  ∃ loaded,
    results db' later question_id =
      render "polls/results.html"
        {[ "question" := CtxQuestion {| pk := question_id; fields := q;
                                        prefetched := Some loaded |} ]} ∧
    votes <$> loaded !! choice_id = Some (votes c + 1) ∧
    choice_text <$> loaded !! choice_id = Some (choice_text c) ∧
    (∀ k, k ≠ choice_id → loaded !! k = question_choices db question_id !! k).
Proof.
  intros Hk Hd Hlater Hc Hown Hpost Hvalue. simpl.
  assert (Hsel : question_choices db question_id !! choice_id = Some c)
    by (by apply lookup_question_choices).
  rewrite (vote_published as_pk db now request question_id q Hk Hd). simpl.
  rewrite Hpost, Hvalue, Hsel. simpl.
  set (db' := Choice_save db now choice_id (add_vote c)).
  exists (question_choices db' question_id).
  unfold results, Question_objects_prefetch_get.
  rewrite (get_queryset_published db' later question_id q); [|done|lia].
  split; [reflexivity|].
  assert (Hrow : question_choices db' question_id !! choice_id =
                 Some {| question := question c; choice_text := choice_text c;
                         votes := votes c + 1;
                         choice_created_at := choice_created_at c;
                         choice_updated_at := now |}).
  { apply lookup_question_choices. split; [apply lookup_insert_eq|done]. }
  rewrite Hrow. split_and!; [done|done|].
  intros k Hne. unfold question_choices, db', Choice_save. simpl.
  rewrite !map_lookup_filter. by rewrite lookup_insert_ne.
Qed.

Lemma results_after_vote_witness :
  ∃ loaded,
    results (vote decimal past_question_db 0 (choice_form "1") 1).1 5 1 =
      render "polls/results.html"
        {[ "question" := CtxQuestion
             {| pk := 1;
                fields := {| question_text := "Question."; pub_date := -30 * day;
                             created_at := 0; updated_at := 0 |};
                prefetched := Some loaded |} ]} ∧
    votes <$> loaded !! 1 = Some 1.
Proof.
  destruct (results_after_vote decimal past_question_db 0 5 1 1
              {| question_text := "Question."; pub_date := -30 * day;
                 created_at := 0; updated_at := 0 |}
              (Choice_new 1 "Choice 1" 0) (choice_form "1") "1")
    as (loaded & Hr & Hv & _).
  - reflexivity.
  - vm_compute. discriminate.
  - lia.
  - reflexivity.
  - reflexivity.
  - reflexivity.
  - reflexivity.
  - exists loaded. split; [exact Hr|exact Hv].
Defined.

(** X9: sequential votes add up: for a Question published before each of
    the instants and a Choice it owns, sending the same accepted vote once
    at each of [n] instants raises that Choice's [votes] by exactly [n];
    its owner and its text stay. *)
Theorem repeated_votes_add_up (as_pk : string → option Z) (db : DB)
    (question_id choice_id : Z) (q : Question) (c : Choice)
    (request : HttpRequest) (value : string) (nows : list Z) :
  questions db !! question_id = Some q →
  choices db !! choice_id = Some c →
  question c = question_id →
  POST request !! "choice" = Some value →
  as_pk value = Some choice_id →
  Forall (λ now, pub_date q ≤ now) nows →
  ∃ c', choices (serve as_pk db (vote_at_each question_id request nows)) !! choice_id = Some c' ∧
        votes c' = votes c + Z.of_nat (length nows) ∧
        question c' = question c ∧
        choice_text c' = choice_text c.
Proof.
  intros Hk Hc Hown Hpost Hvalue Hall. revert db c Hk Hc Hown.
  induction Hall as [|now nows Hd Hall IH]; intros db c Hk Hc Hown; simpl.
  - exists c. split_and!; [done|lia|done|done].
  - assert (Hsel : question_choices db question_id !! choice_id = Some c)
      by (by apply lookup_question_choices).
    rewrite (vote_published as_pk db now request question_id q Hk Hd). simpl.
    rewrite Hpost, Hvalue, Hsel. simpl.
    edestruct (IH (Choice_save db now choice_id (add_vote c))) as (c' & Hc' & Hv & Ho & Ht).
    + exact Hk.
    + apply lookup_insert_eq.
    + exact Hown.
    + exists c'. simpl in *. split_and!; [done|lia|done|done].
Qed.

Lemma repeated_votes_add_up_witness :
  ∃ c', choices (serve decimal past_question_db
                   (vote_at_each 1 (choice_form "1") [0; 1; 2])) !! 1 = Some c' ∧
        votes c' = 3.
Proof.
  destruct (repeated_votes_add_up decimal past_question_db 1 1
              {| question_text := "Question."; pub_date := -30 * day;
                 created_at := 0; updated_at := 0 |}
              (Choice_new 1 "Choice 1" 0) (choice_form "1") "1" [0; 1; 2])
    as (c' & Hc' & Hv & _).
  - reflexivity.
  - reflexivity.
  - reflexivity.
  - reflexivity.
  - reflexivity.
  - repeat constructor; vm_compute; discriminate.
  - exists c'. split; [exact Hc'|exact Hv].
Defined.

(** ** Visibility over time *)

Lemma detail_status db now question_id :
  status_code (detail db now question_id) = 200 ↔
  is_Some (get_queryset db now !! question_id).
Proof.
  unfold detail, Question_objects_prefetch_get.
  destruct (get_queryset db now !! question_id); simpl; split; try done;
    intros [? ?]; done.
Qed.

Lemma results_status db now question_id :
  status_code (results db now question_id) = 200 ↔
  is_Some (get_queryset db now !! question_id).
Proof.
  unfold results, Question_objects_prefetch_get.
  destruct (get_queryset db now !! question_id); simpl; split; try done;
    intros [? ?]; done.
Qed.

Lemma vote_status_404 (as_pk : string → option Z) db now request question_id :
  status_code (vote as_pk db now request question_id).2 = 404 ↔
  get_queryset db now !! question_id = None.
Proof.
  rewrite vote_response.
  destruct (get_queryset db now !! question_id); [|done].
  destruct (selected as_pk db now request question_id); simpl; [split; done|].
  destruct (as_pk <$> POST request !! "choice") as [[?|]|]; simpl; split; done.
Qed.

Lemma get_queryset_later db now later k :
  now ≤ later →
  is_Some (get_queryset db now !! k) → is_Some (get_queryset db later !! k).
Proof.
  intros Hle [q Hq]. apply lookup_get_queryset in Hq as [Hk Hd].
  exists q. apply lookup_get_queryset. split; [done|lia].
Qed.

(** X10: a Question that the detail handler shows at some instant stays
    reachable: at every later instant, and after any sequence of requests
    to the four routes, detail and results answer 200 for it, no vote for
    it is answered 404, and the index lists it. *)
Theorem published_stays_published (as_pk : string → option Z)
    (db : DB) (trace : list (Z * Request))
    (now later question_id : Z) :
  now ≤ later →
  status_code (detail db now question_id) = 200 →
  let db' := serve as_pk db trace in
  status_code (detail db' later question_id) = 200 ∧
  status_code (results db' later question_id) = 200 ∧
  (∀ request, status_code (vote as_pk db' later request question_id).2 ≠ 404) ∧
  (∃ q, (question_id, q) ∈ order_by_desc_pub_date (get_queryset db' later)).
Proof.
  intros Hle Hshown. simpl.
  apply detail_status in Hshown.
  apply (get_queryset_later db now later _ Hle) in Hshown.
  rewrite <- (skeleton_get_queryset db (serve as_pk db trace) later (serve_skeleton as_pk db trace))
    in Hshown.
  split_and!.
  - by apply detail_status.
  - by apply results_status.
  - intros request H404. apply vote_status_404 in H404.
    rewrite H404 in Hshown. by destruct Hshown.
  - destruct Hshown as [q Hq]. exists q. by apply elem_of_order_by.
Qed.

Lemma published_stays_published_witness :
  status_code (detail (serve decimal future_question_db [ (5 * day, GET_index) ])
                 (6 * day) 1) = 200.
Proof.
  refine (proj1 (published_stays_published decimal future_question_db
                   [ (5 * day, GET_index) ] (5 * day) (6 * day) 1 _ _)).
  - vm_compute. discriminate.
  - reflexivity.
Defined.

(** ** Creating rows *)

(** X11: a Question made by [create_question(text, days)] at instant
    [now] can be fetched through [Question.objects] exactly from the
    instant [now + days] on; before that the fetch raises [DoesNotExist],
    also immediately after the creation when [days] is positive. *)
Theorem created_question_visibility (db : DB) (now pk : Z) (text : string)
    (days t : Z) :
  let created := create_question db now pk text days in
  (Question_objects_get created.1 t pk =
     inr {| pk := pk; fields := created.2.2; prefetched := None |}
   ↔ now + days * day ≤ t) ∧
  (Question_objects_get created.1 t pk = inl Question_DoesNotExist
   ↔ t < now + days * day) ∧
  (Question_objects_get created.1 now pk = inl Question_DoesNotExist ↔ 0 < days).
Proof.
  simpl.
  assert (Hget : ∀ t0,
    (Question_objects_get (create_question db now pk text days).1 t0 pk =
       inr {| pk := pk; fields := (create_question db now pk text days).2.2;
              prefetched := None |} ↔ now + days * day ≤ t0) ∧
    (Question_objects_get (create_question db now pk text days).1 t0 pk =
       inl Question_DoesNotExist ↔ t0 < now + days * day)).
  { intros t0. unfold Question_objects_get.
    destruct (get_queryset (create_question db now pk text days).1 t0 !! pk)
      as [q|] eqn:Hq.
    - apply lookup_get_queryset in Hq as [Hk Hd]. simpl in Hk.
      rewrite lookup_insert_eq in Hk. simplify_eq. simpl in Hd.
      split; split; try done. lia.
    - assert (Hlt : t0 < now + days * day).
      { destruct (decide (t0 < now + days * day)) as [|Hge]; [done|].
        rewrite (get_queryset_published _ t0 pk
                   (create_question db now pk text days).2.2) in Hq; [done| |].
        - simpl. apply lookup_insert_eq.
        - simpl. lia. }
      split; split; try done. lia. }
  split_and!; [apply Hget|apply Hget|].
  rewrite (proj2 (Hget now)). unfold day. lia.
Qed.

(** X12: a Question created with a [pub_date] still ahead cannot be
    observed through the four routes: at every instant before its
    [pub_date], each request gets the answer it would have got without the
    new row. *)
Theorem unpublished_question_unobservable (as_pk : string → option Z)
    (db : DB) (now pk : Z) (text : string)
    (days t : Z) (r : Request) :
  questions db !! pk = None →
  t < now + days * day →
  (dispatch as_pk (create_question db now pk text days).1 t r).2 = (dispatch as_pk db t r).2.
Proof.
  intros Hfresh Hlt.
  set (db' := (create_question db now pk text days).1).
  assert (Hqs : get_queryset db' t = get_queryset db t).
  { unfold get_queryset, db', create_question. simpl.
    apply map_filter_insert_not'.
    - simpl. lia.
    - intros q Hq. congruence. }
  assert (Hch : ∀ k, question_choices db' k = question_choices db k) by done.
  destruct r as [|question_id|question_id request|question_id]; simpl.
  - unfold index. by rewrite Hqs.
  - unfold detail, Question_objects_prefetch_get. by rewrite Hqs, Hch.
  - rewrite !vote_response. unfold selected. rewrite Hqs. done.
  - unfold results, Question_objects_prefetch_get. by rewrite Hqs, Hch.
Qed.

Lemma unpublished_question_unobservable_witness :
  (dispatch decimal (create_question past_question_db 0 2 "Future question." 30).1 day
     GET_index).2
  = (dispatch decimal past_question_db day GET_index).2.
Proof.
  apply unpublished_question_unobservable.
  - reflexivity.
  - vm_compute. reflexivity.
Defined.

(** X13: a Choice made by [create_choice] for a published Question
    collects a vote: the vote that submits the new key (as a text that the
    key conversion reads as it) is answered with the redirect to the
    Question's results, and [get_choice] then returns the row with [votes] 1
    and the text it was created with. *)
Theorem created_choice_collects_vote (as_pk : string → option Z) (db : DB)
    (now pk question_id t : Z) (text value : string) (q : Question) :
  questions db !! question_id = Some q →
  pub_date q ≤ t →
  as_pk value = Some pk →
  let db1 := (create_choice db now pk text (question_id, q)).1 in
  ∃ db2 c',
    vote as_pk db1 t (choice_form value) question_id =
      (db2, HttpResponseRedirect (reverse "polls:results" [question_id])) ∧
    get_choice db2 pk = inr (pk, c') ∧
    votes c' = 1 ∧ choice_text c' = text ∧ question c' = question_id ∧
    (∀ k, k ≠ pk → get_choice db2 k = get_choice db k).
Proof.
  intros Hk Hd Hvalue db1.
  assert (Hc : question_choices db1 question_id !! pk =
               Some (Choice_new question_id text now)).
  { apply lookup_question_choices. split; [apply lookup_insert_eq|done]. }
  rewrite (vote_published as_pk db1 t (choice_form value) question_id q Hk Hd). simpl.
  rewrite lookup_singleton_eq, Hvalue, Hc.
  eexists _, _. split; [reflexivity|].
  unfold get_choice, Choice_save. simpl. rewrite lookup_insert_eq.
  split_and!; try reflexivity.
  intros k Hne. by rewrite !lookup_insert_ne.
Qed.

Lemma created_choice_collects_vote_witness :
  ∃ db2 c',
    vote decimal (create_choice past_question_db 0 2 "Choice 2"
            (1, {| question_text := "Question."; pub_date := -30 * day;
                   created_at := 0; updated_at := 0 |})).1
         0 (choice_form "2") 1 =
      (db2, HttpResponseRedirect (reverse "polls:results" [1])) ∧
    get_choice db2 2 = inr (2, c') ∧ votes c' = 1.
Proof.
  destruct (created_choice_collects_vote decimal past_question_db 0 2 1 0 "Choice 2" "2"
              {| question_text := "Question."; pub_date := -30 * day;
                 created_at := 0; updated_at := 0 |})
    as (db2 & c' & Hv & Hg & Hvotes & _).
  - reflexivity.
  - vm_compute. discriminate.
  - reflexivity.
  - exists db2, c'. auto.
Defined.

(** ** The empty listing *)

(** X14: the list handler returns the empty listing (the page then says
    that no polls are available) exactly when no stored Question has a
    [pub_date] at or before the current instant; this covers the empty
    store and a store of future Questions only. *)
Theorem index_empty_iff (db : DB) (now : Z) :
  index db now = render "polls/index.html" {[ "questions" := CtxQuestions [] ]}
  ↔ ∀ k q, questions db !! k = Some q → now < pub_date q.
Proof.
  unfold index, order_by_desc_pub_date. split.
  - intros Heq k q Hk.
    destruct (decide (now < pub_date q)) as [|Hge]; [done|]. exfalso.
    assert (Hl : merge_sort newer_first (map_to_list (get_queryset db now)) = []).
    { apply (f_equal (λ r, match r with
                           | render _ context => context !! "questions"
                           | _ => None
                           end)) in Heq.
      rewrite !lookup_singleton_eq in Heq. by simplify_eq. }
    assert (Hin : (k, q) ∈ merge_sort newer_first (map_to_list (get_queryset db now))).
    { rewrite merge_sort_Permutation. apply elem_of_map_to_list.
      apply lookup_get_queryset. split; [done|lia]. }
    rewrite Hl in Hin. by apply not_elem_of_nil in Hin.
  - intros Hall.
    assert (Hempty : get_queryset db now = ∅).
    { apply map_empty. intros k.
      destruct (get_queryset db now !! k) as [q|] eqn:Hq; [|done].
      apply lookup_get_queryset in Hq as [Hk Hd].
      specialize (Hall k q Hk). lia. }
    rewrite Hempty, map_to_list_empty. reflexivity.
Qed.
